(** * Task manager: repository, router and database configuration

    A shallow embedding of [app/crud.py] (TaskRepository), [app/routers/tasks.py]
    (the /tasks endpoints) and [app/database.py] (DatabaseConfig, init_db,
    get_engine, get_session).

    The database is PostgreSQL through asyncpg, the driver [DatabaseConfig]
    rewrites connection strings for.  Timestamps ([datetime.utcnow()]) are
    naive datetimes, here integers (microseconds); the clock reading of a call
    is an explicit argument [now], since nothing in the code constrains
    successive readings.  A string is a sequence of characters of code point
    below 256 (the Latin-1 range, one [ascii] each); an [int] is an unbounded
    integer. *)

From Stdlib Require Import ZArith Ascii String List Bool Lia Sorted Permutation.
From Stdlib Require Import Numbers.DecimalString.
Import ListNotations.

Local Open Scope Z_scope.

(** ** Data model *)

(** Modelled from the spec: [app/models.py] (the SQLModel classes [Task],
    [TaskCreate], [TaskUpdate]) is not under src/.  The attributes of a
    [Task] object, [None] being Python's [None].  The table it maps to has an
    INTEGER primary key [id] (generated by the database), a VARCHAR(200)
    NOT NULL [title] (the spec's title of 1 to 200 characters), a nullable
    VARCHAR [description], a BOOLEAN NOT NULL [completed] (default false), a
    TIMESTAMP NOT NULL [created_at] (set when the object is constructed) and a
    nullable TIMESTAMP [updated_at] (null until the first update). *)
Record Task := mkTask {
  id : option Z;
  title : option string;
  description : option string;
  completed : option bool;
  created_at : option Z;
  updated_at : option Z
}.

(** One [key: value] item of a [Dict[str, Any]] passed to the repository:
    a key naming a column, and a value that is [None] or of the column's
    Python type ([int], [str], [bool], [datetime]).  Values of other types
    are outside this embedding. *)
Inductive assign :=
| SetId (v : option Z)
| SetTitle (v : option string)
| SetDescription (v : option string)
| SetCompleted (v : option bool)
| SetCreatedAt (v : option Z)
| SetUpdatedAt (v : option Z).

Inductive field := FId | FTitle | FDescription | FCompleted | FCreatedAt | FUpdatedAt.

Definition field_eqb (f g : field) : bool :=
  match f, g with
  | FId, FId | FTitle, FTitle | FDescription, FDescription
  | FCompleted, FCompleted | FCreatedAt, FCreatedAt
  | FUpdatedAt, FUpdatedAt => true
  | _, _ => false
  end.


(** [setattr(task, key, value)] *)
Definition setattr (t : Task) (a : assign) : Task :=
  match a with
  | SetId v => {| id := v; title := title t; description := description t;
                  completed := completed t; created_at := created_at t;
                  updated_at := updated_at t |}
  | SetTitle v => {| id := id t; title := v; description := description t;
                     completed := completed t; created_at := created_at t;
                     updated_at := updated_at t |}
  | SetDescription v => {| id := id t; title := title t; description := v;
                           completed := completed t; created_at := created_at t;
                           updated_at := updated_at t |}
  | SetCompleted v => {| id := id t; title := title t; description := description t;
                         completed := v; created_at := created_at t;
                         updated_at := updated_at t |}
  | SetCreatedAt v => {| id := id t; title := title t; description := description t;
                         completed := completed t; created_at := v;
                         updated_at := updated_at t |}
  | SetUpdatedAt v => {| id := id t; title := title t; description := description t;
                         completed := completed t; created_at := created_at t;
                         updated_at := v |}
  end.

(** [for key, value in data.items(): setattr(task, key, value)] *)
Definition apply_items (t : Task) (data : list assign) : Task :=
  fold_left setattr data t.

(** Modelled from the spec: the defaults of [Task]: no id, description None,
    completed False, created_at from its default factory, updated_at None.
    The table model does not validate: a title the dict does not supply stays
    unset, and the INSERT leaves that column null. *)
Definition task_defaults (now : Z) : Task :=
  {| id := None; title := None; description := None; completed := Some false;
     created_at := Some now; updated_at := None |}.

(** [Task] called with the items of [task_data] as keyword arguments *)
Definition construct (task_data : list assign) (now : Z) : Task :=
  apply_items (task_defaults now) task_data.

(** Modelled from the spec: [TaskCreate] (title required, description
    optional, completed defaulting to false). *)
Record TaskCreate := mkTaskCreate {
  c_title : string;
  c_description : option string;
  c_completed : bool
}.


(** [TaskCreate.model_dump()]: every field, set or defaulted. *)
Definition dump_create (c : TaskCreate) : list assign :=
  [SetTitle (Some (c_title c)); SetDescription (c_description c);
   SetCompleted (Some (c_completed c))].

(** Modelled from the spec: [TaskUpdate], every field optional with default
    None.  The outer [None] means the field was not sent in the request body,
    [Some None] that it was sent as null (the spec's tri-state). *)
Record TaskUpdate := mkTaskUpdate {
  u_title : option (option string);
  u_description : option (option string);
  u_completed : option (option bool)
}.

(** Modelled from the spec: the validation of an Update body: a title, when
    it is a string, has 1 to 200 characters. *)
Definition valid_update (u : TaskUpdate) : bool :=
  match u_title u with
  | Some (Some v) => (1 <=? String.length v)%nat && (String.length v <=? 200)%nat
  | _ => true
  end.

(** [TaskUpdate.model_dump(exclude_unset=True)]: the fields sent, a field
    sent as null included with value None. *)
Definition dump_update (u : TaskUpdate) : list assign :=
  match u_title u with Some v => [SetTitle v] | None => [] end ++
  match u_description u with Some v => [SetDescription v] | None => [] end ++
  match u_completed u with Some v => [SetCompleted v] | None => [] end.

(** ** Storage and sessions *)

(** Errors the database layer raises; they propagate unhandled out of the
    repository and the endpoints.  [QueryError]: a query whose argument the
    driver or the server rejects; [FlushError]: a flush that fails. *)
Inductive db_error := QueryError | FlushError.

Inductive result (A : Type) :=
| Ok (a : A)
| Err (e : db_error).
Arguments Ok {A} a.
Arguments Err {A} e.

(** A session: the committed rows of the [tasks] table, and the rows as the
    session sees them (committed rows plus its flushed, uncommitted writes). *)
Record Session := mkSession {
  committed : list Task;
  pending : list Task
}.

Definition open_session (db : list Task) : Session :=
  {| committed := db; pending := db |}.

(** [await session.commit()] *)
Definition commit (s : Session) : Session :=
  {| committed := pending s; pending := pending s |}.

Definition id_is (i : Z) (t : Task) : bool :=
  match id t with Some j => Z.eqb i j | None => false end.

(** The row with primary key [i]. *)
Fixpoint find_row (i : Z) (rows : list Task) : option Task :=
  match rows with
  | [] => None
  | t :: rows' => if id_is i t then Some t else find_row i rows'
  end.

(** Write back the (mutated) object loaded for primary key [i]. *)
Fixpoint replace_row (i : Z) (t' : Task) (rows : list Task) : list Task :=
  match rows with
  | [] => []
  | t :: rows' => if id_is i t then t' :: rows' else t :: replace_row i t' rows'
  end.

(** [await session.delete(task)] *)
Fixpoint remove_row (i : Z) (rows : list Task) : list Task :=
  match rows with
  | [] => []
  | t :: rows' => if id_is i t then rows' else t :: remove_row i rows'
  end.

Fixpoint mem_id (i : Z) (rows : list Task) : bool :=
  match rows with
  | [] => false
  | t :: rows' => id_is i t || mem_id i rows'
  end.

(** The primary-key constraint checked at a flush: every row has a non-null,
    unique id (SQLAlchemy refuses to flush a null primary key, the database
    a duplicate one). *)
Fixpoint pk_ok (rows : list Task) : bool :=
  match rows with
  | [] => true
  | t :: rows' =>
      match id t with
      | Some i => negb (mem_id i rows') && pk_ok rows'
      | None => false
      end
  end.

(** The range of PostgreSQL's INTEGER, the type asyncpg binds [tasks.id] and
    the OFFSET and LIMIT arguments with. *)
Definition in_int4 (z : Z) : bool := (-2147483648 <=? z) && (z <? 2147483648).

(** Whether a text holds the NUL character, which PostgreSQL text values
    cannot hold. *)
Fixpoint has_nul (s : string) : bool :=
  match s with
  | EmptyString => false
  | String c s' => Ascii.eqb c Ascii.zero || has_nul s'
  end.

(** A value its column cannot take: an id outside INTEGER, a title with a
    NUL character or longer than 200 characters, a description with a NUL
    character. *)
Definition value_error (t : Task) : bool :=
  match id t with Some i => negb (in_int4 i) | None => false end ||
  match title t with
  | Some v => has_nul v || (200 <? String.length v)%nat
  | None => false
  end ||
  match description t with Some v => has_nul v | None => false end.

(** A NOT NULL column ([title], [completed], [created_at]) left null. *)
Definition null_error (t : Task) : bool :=
  match title t, completed t, created_at t with
  | Some _, Some _, Some _ => false
  | _, _, _ => true
  end.

(** A row its table's column types and NOT NULL constraints accept. *)
Definition row_ok (t : Task) : bool := negb (value_error t) && negb (null_error t).

(** The flush of the object [t], inserted or updated, that leaves the rows
    [rows]: its values must fit their columns and the primary key must stay
    non-null and unique.  The other rows are stored ones. *)
Definition flush_ok (t : Task) (rows : list Task) : bool := row_ok t && pk_ok rows.

Definition id_or_zero (t : Task) : Z :=
  match id t with Some i => i | None => 0 end.

(** Modelled from the spec: the generated primary key (the database engine is
    not part of the repository): one more than the largest stored id. *)
Definition next_id (rows : list Task) : Z :=
  1 + fold_right (fun t m => Z.max (id_or_zero t) m) 0 rows.

(** Insertion sort on [id]: [ORDER BY tasks.id]. *)
Fixpoint insert_by_id (t : Task) (rows : list Task) : list Task :=
  match rows with
  | [] => [t]
  | u :: rows' =>
      if id_or_zero t <=? id_or_zero u then t :: u :: rows'
      else u :: insert_by_id t rows'
  end.

Fixpoint sort_by_id (rows : list Task) : list Task :=
  match rows with
  | [] => []
  | t :: rows' => insert_by_id t (sort_by_id rows')
  end.

(** ** [TaskRepository] (app/crud.py) *)

(** [create]: construct [Task] from [task_data], [session.add], [flush] (the
    database fills in the key; the row must fit the table), [refresh]. *)
Definition create (task_data : list assign) (now : Z) (s : Session)
  : result (Session * Task) :=
  let task := construct task_data now in
  let task := match id task with
              | Some _ => task
              | None => setattr task (SetId (Some (next_id (pending s))))
              end in
  let rows := pending s ++ [task] in
  if flush_ok task rows then Ok (mkSession (committed s) rows, task)
  else Err FlushError.

(** [get]: [session.get(Task, task_id)]; asyncpg cannot bind an id outside
    INTEGER. *)
Definition get (task_id : Z) (s : Session) : result (option Task) :=
  if in_int4 task_id then Ok (find_row task_id (pending s)) else Err QueryError.

(** [get_all]: [select(Task).offset(skip).limit(limit).order_by(Task.id)].
    asyncpg cannot bind a value outside INTEGER, and PostgreSQL rejects a
    negative OFFSET or LIMIT. *)
Definition get_all (skip limit : Z) (s : Session) : result (list Task) :=
  if in_int4 skip && in_int4 limit && (0 <=? skip) && (0 <=? limit)
  then Ok (firstn (Z.to_nat limit) (skipn (Z.to_nat skip) (sort_by_id (pending s))))
  else Err QueryError.

(** [update]: load, [setattr] every item of [data], stamp [updated_at],
    [flush], [refresh]. *)
Definition update (task_id : Z) (data : list assign) (now : Z) (s : Session)
  : result (Session * option Task) :=
  match get task_id s with
  | Err e => Err e
  | Ok None => Ok (s, None)
  | Ok (Some task) =>
      let task := apply_items task data in
      let task := setattr task (SetUpdatedAt (Some now)) in
      let rows := replace_row task_id task (pending s) in
      if flush_ok task rows then Ok (mkSession (committed s) rows, Some task)
      else Err FlushError
  end.

(** [delete] *)
Definition delete (task_id : Z) (s : Session) : result (Session * bool) :=
  match get task_id s with
  | Err e => Err e
  | Ok None => Ok (s, false)
  | Ok (Some _) => Ok (mkSession (committed s) (remove_row task_id (pending s)), true)
  end.

(** [count] *)
Definition count (s : Session) : Z := Z.of_nat (length (pending s)).

(** ** Endpoints (app/routers/tasks.py) *)

Inductive body :=
| BTask (t : Task)
| BTasks (ts : list Task)
| BDetail (d : string)
| BValidationErrors
| BEmpty.

Record response := mkResponse { status_code : Z; rbody : body }.

(** [str] of a Python [int] *)
Definition Z_to_string (x : Z) : string :=
  NilEmpty.string_of_int (Z.to_int x).

Definition not_found_detail (task_id : Z) : string :=
  ("Task " ++ Z_to_string task_id ++ " not found")%string.

Definition not_found (task_id : Z) : response :=
  mkResponse 404 (BDetail (not_found_detail task_id)).

(** An unhandled database error surfaces as the framework's default error. *)
Definition server_error : response :=
  mkResponse 500 (BDetail "Internal Server Error").

(** A request body FastAPI rejects before calling the handler. *)
Definition validation_error : response :=
  mkResponse 422 BValidationErrors.

(** Each request runs on a fresh session over the committed rows; it returns
    the response and the committed rows afterwards.  The handler's
    [session.commit()] makes its writes durable; a request that raises (an
    [HTTPException] or a database error) closes its session uncommitted, which
    rolls its writes back. *)



(** [GET /tasks/{task_id}] *)
Definition get_task (task_id : Z) (db : list Task) : response * list Task :=
  match get task_id (open_session db) with
  | Err _ => (server_error, db)
  | Ok None => (not_found task_id, db)
  | Ok (Some task) => (mkResponse 200 (BTask task), db)
  end.

(** [PATCH /tasks/{task_id}] *)
Definition update_task (task_id : Z) (task_update : TaskUpdate) (now : Z)
  (db : list Task) : response * list Task :=
  if valid_update task_update then
    let update_data := dump_update task_update in
    match update_data with
    | [] => (mkResponse 400 (BDetail "No fields to update"), db)
    | _ =>
        match update task_id update_data now (open_session db) with
        | Err _ => (server_error, db)
        | Ok (_, None) => (not_found task_id, db)
        | Ok (s, Some task) => (mkResponse 200 (BTask task), committed (commit s))
        end
    end
  else (validation_error, db).

(** [DELETE /tasks/{task_id}] *)
Definition delete_task (task_id : Z) (db : list Task) : response * list Task :=
  match delete task_id (open_session db) with
  | Err _ => (server_error, db)
  | Ok (_, false) => (not_found task_id, db)
  | Ok (s, true) => (mkResponse 204 BEmpty, committed (commit s))
  end.

Definition no_fields : TaskUpdate := mkTaskUpdate None None None.

(** ** [DatabaseConfig] (app/database.py) *)

Local Open Scope string_scope.

(** [s.startswith(p)] *)
Fixpoint starts_with (p s : string) : bool :=
  match p, s with
  | EmptyString, _ => true
  | String a p', String b s' => Ascii.eqb a b && starts_with p' s'
  | String _ _, EmptyString => false
  end.

(** [p in s] *)
Fixpoint contains (p s : string) : bool :=
  starts_with p s ||
  match s with
  | EmptyString => false
  | String _ s' => contains p s'
  end.

Fixpoint drop (n : nat) (s : string) : string :=
  match n, s with
  | O, _ => s
  | S n', String _ s' => drop n' s'
  | S _, EmptyString => EmptyString
  end.

(** [s.replace(old, new, 1)] *)
Fixpoint replace_first (old new s : string) : string :=
  if starts_with old s then new ++ drop (String.length old) s
  else match s with
       | EmptyString => EmptyString
       | String c s' => String c (replace_first old new s')
       end.

(** [s.replace(old, new)] for a non-empty [old]: a left-to-right scan that
    replaces each occurrence and resumes after it; [skip] counts the
    characters of the occurrence just replaced that remain to be passed. *)
Fixpoint replace_go (old new : string) (skip : nat) (s : string) : string :=
  match s with
  | EmptyString => EmptyString
  | String c s' =>
      match skip with
      | S k => replace_go old new k s'
      | O =>
          if starts_with old s
          then new ++ replace_go old new (pred (String.length old)) s'
          else String c (replace_go old new O s')
      end
  end.

Definition replace_all (old new s : string) : string := replace_go old new O s.

Definition is_amp (c : Ascii.ascii) : bool := Ascii.eqb c "&"%char.

Definition channel_binding_key : string := "channel_binding=".

(** [re.sub(r'[&?]channel_binding=[^&]*', '', s)]: a left-to-right scan.
    A match starts at an [&] or [?] followed by [channel_binding=]; the
    characters of [channel_binding=] are not [&], so the match is that
    character followed by the longest run of non-[&] characters, which the
    scan drops while [dropping] holds; the search resumes at the next [&]. *)
Fixpoint strip_go (dropping : bool) (s : string) : string :=
  match s with
  | EmptyString => EmptyString
  | String c s' =>
      if dropping && negb (is_amp c) then strip_go true s'
      else if (is_amp c || Ascii.eqb c "?"%char) && starts_with channel_binding_key s'
      then strip_go true s'
      else String c (strip_go false s')
  end.

Definition strip_channel_binding (s : string) : string := strip_go false s.

(** The connection-string rewriting of [DatabaseConfig.__init__]. *)
Definition rewrite_url (url : string) : string :=
  let url := if starts_with "postgresql://" url
             then replace_first "postgresql://" "postgresql+asyncpg://" url
             else url in
  let url := if contains "sslmode=" url then replace_all "sslmode=" "ssl=" url
             else url in
  let url := if contains channel_binding_key url then strip_channel_binding url
             else url in
  url.

(** [os.getenv(name)] *)
Definition environment := string -> option string.

(** Truth value of an [Optional[str]]: [None] and [""] are false. *)
Definition truthy (v : option string) : bool :=
  match v with Some (String _ _) => true | _ => false end.

(** [a or b] *)
Definition py_or (a b : option string) : option string :=
  if truthy a then a else b.

Inductive config_result :=
| ConfigOk (url : string)
| ConfigError (msg : string).

(** The non-empty suffixes of a string. *)
Fixpoint suffixes (s : string) : list string :=
  match s with
  | EmptyString => []
  | String _ s' => s :: suffixes s'
  end.

(** [DatabaseConfig()], its [url] attribute; the echo and pool settings are
    read after it and play no part in it. *)
Definition database_config_url (env : environment) : config_result :=
  let url := py_or (env "DATABASE_URL") (env "DB_URL") in
  match url with
  | Some (String _ _ as u) => ConfigOk (rewrite_url u)
  | _ => ConfigError "DATABASE_URL or DB_URL environment variable is required"
  end.

Local Close Scope string_scope.

(** ** Fields of a task, as [assign] items *)


(** ** Sequences of repository calls *)

Inductive repo_op :=
| OpCreate (c : TaskCreate) (now : Z)
| OpUpdate (task_id : Z) (data : list assign) (now : Z)
| OpDelete (task_id : Z).

Definition step (op : repo_op) (s : Session) : result Session :=
  match op with
  | OpCreate c now =>
      match create (dump_create c) now s with Ok (s', _) => Ok s' | Err e => Err e end
  | OpUpdate task_id data now =>
      match update task_id data now s with Ok (s', _) => Ok s' | Err e => Err e end
  | OpDelete task_id =>
      match delete task_id s with Ok (s', _) => Ok s' | Err e => Err e end
  end.

(** The calls of [ops] in order on one session; a database error ends the
    sequence. *)
Fixpoint run (ops : list repo_op) (s : Session) : result Session :=
  match ops with
  | [] => Ok s
  | op :: ops' => match step op s with Ok s' => run ops' s' | Err e => Err e end
  end.

(** The same calls on rows paired with a history bit: whether [update] has
    modified the row since its creation. *)
Definition grow := (Task * bool)%type.

Fixpoint greplace (i : Z) (t' : Task) (g : list grow) : list grow :=
  match g with
  | [] => []
  | (t, m) :: g' => if id_is i t then (t', true) :: g' else (t, m) :: greplace i t' g'
  end.

Fixpoint gremove (i : Z) (g : list grow) : list grow :=
  match g with
  | [] => []
  | (t, m) :: g' => if id_is i t then g' else (t, m) :: gremove i g'
  end.

Definition gstep (op : repo_op) (g : list grow) : result (list grow) :=
  let s := mkSession [] (map fst g) in
  match op with
  | OpCreate c now =>
      match create (dump_create c) now s with
      | Ok (_, t) => Ok (g ++ [(t, false)])
      | Err e => Err e
      end
  | OpUpdate task_id data now =>
      match update task_id data now s with
      | Ok (_, Some t') => Ok (greplace task_id t' g)
      | Ok (_, None) => Ok g
      | Err e => Err e
      end
  | OpDelete task_id =>
      match delete task_id s with
      | Ok (_, true) => Ok (gremove task_id g)
      | Ok (_, false) => Ok g
      | Err e => Err e
      end
  end.

Fixpoint grun (ops : list repo_op) (g : list grow) : result (list grow) :=
  match ops with
  | [] => Ok g
  | op :: ops' => match gstep op g with Ok g' => grun ops' g' | Err e => Err e end
  end.

(** Each row's [updated_at] is null exactly when its history bit is unset. *)
Definition history_inv (g : list grow) : Prop :=
  forall t m, In (t, m) g -> (updated_at t = None <-> m = false).

(** The order of [ORDER BY tasks.id]. *)
Definition id_le (a b : Task) : Prop := id_or_zero a <= id_or_zero b.





(** ** The rest of [DatabaseConfig], [init_db], [get_engine], [get_session] *)

Local Open Scope string_scope.

(** [os.getenv(name, default)] *)
Definition getenv_default (env : environment) (name default : string) : string :=
  match env name with Some v => v | None => default end.

(** [str.lower()] on a Latin-1 character: A to Z, and the capitals 0xC0 to
    0xDE except the multiplication sign 0xD7, move up by 0x20. *)
Definition char_lower (c : Ascii.ascii) : Ascii.ascii :=
  let n := Ascii.nat_of_ascii c in
  if ((65 <=? n)%nat && (n <=? 90)%nat) ||
     ((192 <=? n)%nat && (n <=? 222)%nat && negb (n =? 215)%nat)
  then Ascii.ascii_of_nat (n + 32) else c.

Fixpoint lower (s : string) : string :=
  match s with
  | EmptyString => EmptyString
  | String c s' => String (char_lower c) (lower s')
  end.

(** [DatabaseConfig] as built by [DatabaseConfig()]. *)
Record DatabaseConfig := mkDatabaseConfig {
  cfg_url : string;
  cfg_echo : bool;
  cfg_pool_size : Z;
  cfg_max_overflow : Z
}.

Inductive py_exc := ValueError | RuntimeError | EngineCreationError.

Inductive py_result (A : Type) :=
| PyOk (a : A)
| PyErr (e : py_exc).
Arguments PyOk {A} a.
Arguments PyErr {A} e.

(** [DatabaseConfig()].  The builtin [int] on a string is the argument
    [py_int], [None] standing for its ValueError: which strings it accepts
    depends on the interpreter (its version and its [int_max_str_digits]
    limit), so the properties below hold for every such function. *)
Definition database_config (py_int : string -> option Z) (env : environment)
  : py_result DatabaseConfig :=
  match database_config_url env with
  | ConfigError _ => PyErr ValueError
  | ConfigOk url =>
      let echo := String.eqb (lower (getenv_default env "SQL_ECHO" "False")) "true" in
      match py_int (getenv_default env "DB_POOL_SIZE" "5") with
      | None => PyErr ValueError
      | Some pool_size =>
          match py_int (getenv_default env "DB_MAX_OVERFLOW" "10") with
          | None => PyErr ValueError
          | Some max_overflow => PyOk (mkDatabaseConfig url echo pool_size max_overflow)
          end
      end
  end.

(** The arguments [init_db] passes to [create_async_engine]. *)
Record Engine := mkEngine {
  engine_url : string;
  engine_echo : bool;
  engine_pool_size : Z;
  engine_max_overflow : Z;
  engine_pool_pre_ping : bool;
  engine_pool_recycle : Z
}.

(** [init_db()] on the module-level [_engine].  Whether [create_async_engine]
    accepts its arguments (a URL it can parse, an installed dialect, pool
    options the dialect's pool takes) is the argument [accepts]; it opens no
    connection.  An exception from [DatabaseConfig()] or from
    [create_async_engine] leaves [_engine] as it was. *)
Definition init_db (py_int : string -> option Z) (accepts : Engine -> bool)
  (env : environment) (engine : option Engine) : py_result Engine * option Engine :=
  match database_config py_int env with
  | PyErr e => (PyErr e, engine)
  | PyOk config =>
      let e := mkEngine (cfg_url config) (cfg_echo config) (cfg_pool_size config)
                        (cfg_max_overflow config) true 3600 in
      if accepts e then (PyOk e, Some e) else (PyErr EngineCreationError, engine)
  end.

(** [get_engine()] *)
Definition get_engine (engine : option Engine) : py_result Engine :=
  match engine with
  | None => PyErr RuntimeError
  | Some e => PyOk e
  end.

(** [get_session()]: the session it yields is bound to [_engine]. *)
Definition get_session (engine : option Engine) : py_result Engine :=
  match engine with
  | None => PyErr RuntimeError
  | Some e => PyOk e
  end.

(** A model of [int(s)] in CPython 3.11 and later with the default limit of
    4300 digits, on Latin-1 text, used to run examples: surrounding
    whitespace (tab to carriage return, 0x1c to 0x20, 0x85, 0xa0), an
    optional sign, then decimal digits (only 0 to 9 among Latin-1 characters)
    with single underscores between them. *)
Definition is_space (c : Ascii.ascii) : bool :=
  let n := Ascii.nat_of_ascii c in
  ((9 <=? n)%nat && (n <=? 13)%nat) || ((28 <=? n)%nat && (n <=? 32)%nat) ||
  (n =? 133)%nat || (n =? 160)%nat.

Fixpoint strip_leading (s : string) : string :=
  match s with
  | EmptyString => EmptyString
  | String c s' => if is_space c then strip_leading s' else s
  end.

Fixpoint rev_string (s : string) : string :=
  match s with
  | EmptyString => EmptyString
  | String c s' => rev_string s' ++ String c EmptyString
  end.

Definition strip (s : string) : string :=
  rev_string (strip_leading (rev_string (strip_leading s))).

Definition is_digit (c : Ascii.ascii) : bool :=
  let n := Ascii.nat_of_ascii c in (48 <=? n)%nat && (n <=? 57)%nat.

Definition digit_value (c : Ascii.ascii) : Z := Z.of_nat (Ascii.nat_of_ascii c) - 48.

(** Decimal digits with single underscores between them; [after_sep] holds
    at the start and after an underscore, where a digit must follow. *)
Fixpoint parse_digits (s : string) (acc : Z) (after_sep : bool) : option Z :=
  match s with
  | EmptyString => if after_sep then None else Some acc
  | String c s' =>
      if is_digit c then parse_digits s' (acc * 10 + digit_value c) false
      else if Ascii.eqb c "_" && negb after_sep then parse_digits s' acc true
      else None
  end.

Fixpoint digit_count (s : string) : nat :=
  match s with
  | EmptyString => O
  | String c s' => ((if is_digit c then 1 else 0) + digit_count s')%nat
  end.

Definition sign_and_digits (s : string) : Z * string :=
  match s with
  | String c rest =>
      if Ascii.eqb c "-" then (-1, rest)
      else if Ascii.eqb c "+" then (1, rest)
      else (1, s)
  | EmptyString => (1, EmptyString)
  end.

Definition int_latin1 (s : string) : option Z :=
  let (sign, digits) := sign_and_digits (strip s) in
  if (4300 <? digit_count digits)%nat then None
  else option_map (Z.mul sign) (parse_digits digits 0 true).

Local Close Scope string_scope.

(** ** Lemmas on the storage model *)

Lemma id_is_true (i : Z) (t : Task) : id_is i t = true <-> id t = Some i.
Proof.
  unfold id_is. destruct (id t) as [j|]; split; intro H; try discriminate.
  - apply Z.eqb_eq in H. now subst.
  - injection H as ->. apply Z.eqb_refl.
Qed.










Lemma in_int4_true (z : Z) : in_int4 z = true <-> -2147483648 <= z < 2147483648.
Proof.
  unfold in_int4. rewrite andb_true_iff, Z.leb_le, Z.ltb_lt. reflexivity.
Qed.

(** In range, [get] is the lookup of the row. *)
Lemma get_in_range (i : Z) (s : Session) :
  in_int4 i = true -> get i s = Ok (find_row i (pending s)).
Proof. intro H. unfold get. rewrite H. reflexivity. Qed.

(** The entity [create] builds from a Create payload, before the key. *)
Lemma construct_dump_create (c : TaskCreate) (now : Z) :
  construct (dump_create c) now =
  {| id := None; title := Some (c_title c); description := c_description c;
     completed := Some (c_completed c); created_at := Some now; updated_at := None |}.
Proof. reflexivity. Qed.



Lemma dump_update_nil (u : TaskUpdate) : dump_update u = [] <-> u = no_fields.
Proof.
  destruct u as [[t|] [d|] [c|]]; unfold no_fields; simpl; split; intro H;
    solve [discriminate | reflexivity].
Qed.

(** ** Claims on the repository and the endpoints *)




(** C3: a PATCH whose body supplies no field responds 400 "No fields to
    update" and leaves the committed rows unchanged. *)
Theorem patch_empty_rejected (task_id : Z) (u : TaskUpdate) (now : Z) (db : list Task) :
  dump_update u = [] ->
  update_task task_id u now db =
    (mkResponse 400 (BDetail "No fields to update"), db).
Proof. intro H. apply dump_update_nil in H. subst u. reflexivity. Qed.

Lemma patch_empty_rejected_witness :
  dump_update no_fields = [] /\
  update_task 1 no_fields 5
    [{| id := Some 1; title := Some "a"%string; description := None;
        completed := Some false; created_at := Some 1; updated_at := None |}] =
  (mkResponse 400 (BDetail "No fields to update"),
    [{| id := Some 1; title := Some "a"%string; description := None;
        completed := Some false; created_at := Some 1; updated_at := None |}]).
Proof. split; [reflexivity | apply patch_empty_rejected; reflexivity]. Defined.

(** C9: whether or not a task with the id is stored, a PATCH with an empty
    body responds 400, never 404: the emptiness check comes before any
    lookup. *)
Theorem patch_empty_before_lookup (task_id : Z) (now : Z) (db : list Task) :
  status_code (fst (update_task task_id no_fields now db)) = 400 /\
  status_code (fst (update_task task_id no_fields now db)) <> 404.
Proof. split; [reflexivity | discriminate]. Qed.







(** ** [get_all]: ordering and pagination *)

Lemma insert_by_id_perm (t : Task) (rows : list Task) :
  Permutation.Permutation (insert_by_id t rows) (t :: rows).
Proof.
  induction rows as [|u rows IH]; simpl; [reflexivity|].
  destruct (id_or_zero t <=? id_or_zero u); [reflexivity|].
  eapply Permutation.perm_trans; [apply Permutation.perm_skip, IH|].
  apply Permutation.perm_swap.
Qed.

Lemma sort_by_id_perm (rows : list Task) :
  Permutation.Permutation (sort_by_id rows) rows.
Proof.
  induction rows as [|t rows IH]; simpl; [reflexivity|].
  eapply Permutation.perm_trans; [apply insert_by_id_perm|].
  apply Permutation.perm_skip, IH.
Qed.

Lemma insert_by_id_sorted (t : Task) (rows : list Task) :
  Sorted id_le rows -> Sorted id_le (insert_by_id t rows).
Proof.
  induction 1 as [|u rows Hs IH Hhd]; simpl.
  - repeat constructor.
  - destruct (id_or_zero t <=? id_or_zero u) eqn:E.
    + constructor; [constructor; assumption|]. constructor. unfold id_le. lia.
    + constructor; [exact IH|].
      destruct rows as [|v rows]; simpl.
      * constructor. unfold id_le. lia.
      * inversion Hhd; subst.
        destruct (id_or_zero t <=? id_or_zero v); constructor; unfold id_le in *; lia.
Qed.

Lemma sort_by_id_sorted (rows : list Task) : Sorted id_le (sort_by_id rows).
Proof.
  induction rows as [|t rows IH]; simpl; [constructor|].
  apply insert_by_id_sorted, IH.
Qed.

Lemma Sorted_firstn_skipn {A} (R : A -> A -> Prop) (n m : nat) (l : list A) :
  Sorted R l -> Sorted R (firstn n (skipn m l)).
Proof.
  intro H.
  assert (Hskip : forall m l, Sorted R l -> Sorted R (skipn m l)).
  { induction m0 as [|m0 IH]; intros [|x l0] Hl; simpl; try assumption.
    apply IH. inversion Hl; assumption. }
  assert (Hfirst : forall n l, Sorted R l -> Sorted R (firstn n l)).
  { induction n0 as [|n0 IH]; intros [|x l0] Hl; simpl; try constructor.
    - apply IH. inversion Hl; assumption.
    - inversion Hl as [|? ? ? Hhd]; subst.
      destruct n0 as [|n0]; [constructor|].
      destruct l0 as [|y l0]; simpl; [constructor|].
      inversion Hhd; subst. constructor. assumption. }
  apply Hfirst, Hskip, H.
Qed.

(** [get_all] accepts exactly the values within INTEGER that are not
    negative. *)
Lemma get_all_accepts (skip limit : Z) :
  in_int4 skip && in_int4 limit && (0 <=? skip) && (0 <=? limit) = true <->
  0 <= skip < 2147483648 /\ 0 <= limit < 2147483648.
Proof.
  rewrite !andb_true_iff, !in_int4_true, !Z.leb_le. lia.
Qed.

(** C5 (corrected): for [skip] and [limit] from 0 to 2^31 - 1, [get_all]
    succeeds with at most [limit] entities, namely the stored rows sorted by
    ascending id (a permutation of them), past the first [skip]; a [skip] at
    or beyond the number of rows gives the empty list. *)
Theorem get_all_page (skip limit : Z) (s : Session) :
  0 <= skip < 2147483648 -> 0 <= limit < 2147483648 ->
  exists tasks,
    get_all skip limit s = Ok tasks /\
    Z.of_nat (length tasks) <= limit /\
    tasks = firstn (Z.to_nat limit) (skipn (Z.to_nat skip) (sort_by_id (pending s))) /\
    Permutation.Permutation (sort_by_id (pending s)) (pending s) /\
    Sorted id_le tasks /\
    (Z.of_nat (length (pending s)) <= skip -> tasks = []).
Proof.
  intros Hskip Hlimit. unfold get_all.
  rewrite (proj2 (get_all_accepts skip limit) (conj Hskip Hlimit)).
  eexists. split; [reflexivity|]. split.
  { rewrite length_firstn. lia. }
  split; [reflexivity|]. split; [apply sort_by_id_perm|]. split.
  { apply Sorted_firstn_skipn, sort_by_id_sorted. }
  intro Hbeyond. rewrite skipn_all2; [apply firstn_nil|].
  rewrite (Permutation.Permutation_length (sort_by_id_perm (pending s))). lia.
Qed.

Lemma get_all_page_witness :
  get_all 2 2 (open_session
    [{| id := Some 3; title := Some "c"%string; description := None;
        completed := Some false; created_at := Some 3; updated_at := None |};
     {| id := Some 1; title := Some "a"%string; description := None;
        completed := Some false; created_at := Some 1; updated_at := None |};
     {| id := Some 4; title := Some "d"%string; description := None;
        completed := Some false; created_at := Some 4; updated_at := None |};
     {| id := Some 2; title := Some "b"%string; description := None;
        completed := Some false; created_at := Some 2; updated_at := None |}]) =
  Ok [{| id := Some 3; title := Some "c"%string; description := None;
         completed := Some false; created_at := Some 3; updated_at := None |};
      {| id := Some 4; title := Some "d"%string; description := None;
         completed := Some false; created_at := Some 4; updated_at := None |}].
Proof.
  destruct (get_all_page 2 2 (open_session
    [{| id := Some 3; title := Some "c"%string; description := None;
        completed := Some false; created_at := Some 3; updated_at := None |};
     {| id := Some 1; title := Some "a"%string; description := None;
        completed := Some false; created_at := Some 1; updated_at := None |};
     {| id := Some 4; title := Some "d"%string; description := None;
        completed := Some false; created_at := Some 4; updated_at := None |};
     {| id := Some 2; title := Some "b"%string; description := None;
        completed := Some false; created_at := Some 2; updated_at := None |}])
     ltac:(lia) ltac:(lia)) as (tasks & Hg & _ & Ht & _).
  rewrite Hg, Ht. reflexivity.
Defined.

(** C5: the claim fails for a negative [limit]: no list has at most [-1]
    elements, and [get_all] passes the value to the database unchecked,
    which rejects it. *)
Lemma get_all_negative_limit :
  ~ (exists tasks, get_all 0 (-1) (open_session []) = Ok tasks /\
                   Z.of_nat (length tasks) <= -1).
Proof. intros (tasks & _ & H). lia. Qed.

(** ** [update]: the fields it writes *)












Lemma get_some (i : Z) (s : Session) (t : Task) :
  get i s = Ok (Some t) -> in_int4 i = true /\ find_row i (pending s) = Some t.
Proof.
  unfold get. destruct (in_int4 i); intro H; [|discriminate].
  injection H as H. split; [reflexivity | exact H].
Qed.









(** ** The history of [updated_at] *)

Lemma map_fst_greplace (i : Z) (t' : Task) (g : list grow) :
  map fst (greplace i t' g) = replace_row i t' (map fst g).
Proof.
  induction g as [|[t m] g IH]; simpl; [reflexivity|].
  destruct (id_is i t); simpl; [reflexivity | now rewrite IH].
Qed.

Lemma map_fst_gremove (i : Z) (g : list grow) :
  map fst (gremove i g) = remove_row i (map fst g).
Proof.
  induction g as [|[t m] g IH]; simpl; [reflexivity|].
  destruct (id_is i t); simpl; [reflexivity | now rewrite IH].
Qed.

Lemma in_greplace (i : Z) (t' : Task) (g : list grow) (t : Task) (m : bool) :
  In (t, m) (greplace i t' g) -> In (t, m) g \/ (t, m) = (t', true).
Proof.
  induction g as [|[u n] g IH]; simpl; [tauto|].
  destruct (id_is i u); simpl; intros [H | H].
  - right. symmetry. exact H.
  - left. right. exact H.
  - left. left. exact H.
  - destruct (IH H); [left; right | right]; assumption.
Qed.

Lemma in_gremove (i : Z) (g : list grow) (t : Task) (m : bool) :
  In (t, m) (gremove i g) -> In (t, m) g.
Proof.
  induction g as [|[u n] g IH]; simpl; [tauto|].
  destruct (id_is i u); simpl; intros; [tauto|].
  destruct H; [left | right; apply IH]; assumption.
Qed.

Lemma create_updated_at (c : TaskCreate) (now : Z) (s s' : Session) (t : Task) :
  create (dump_create c) now s = Ok (s', t) -> updated_at t = None.
Proof.
  unfold create. rewrite construct_dump_create. simpl.
  destruct (flush_ok _ _); intro H; [injection H as _ <-; reflexivity | discriminate].
Qed.

Lemma update_updated_at (i : Z) (data : list assign) (now : Z) (s s' : Session) (t' : Task) :
  update i data now s = Ok (s', Some t') -> updated_at t' = Some now.
Proof.
  unfold update. destruct (get i s) as [[t|]|]; try discriminate.
  destruct (flush_ok _ _); intro H; [injection H as _ <-; reflexivity | discriminate].
Qed.

(** [step] and [gstep] agree on the rows. *)
Lemma gstep_sim (op : repo_op) (s : Session) (g : list grow) :
  pending s = map fst g ->
  match step op s, gstep op g with
  | Ok s', Ok g' => pending s' = map fst g'
  | Err _, Err _ => True
  | _, _ => False
  end.
Proof.
  destruct s as [c p]. simpl. intros ->.
  destruct op as [cr now | i data now | i]; simpl.
  - unfold create. simpl.
    destruct (flush_ok _ _); simpl; [now rewrite map_app | exact I].
  - unfold update, get. simpl.
    destruct (in_int4 i); [|exact I].
    destruct (find_row i (map fst g)); simpl; [|reflexivity].
    destruct (flush_ok _ _); simpl; [now rewrite map_fst_greplace | exact I].
  - unfold delete, get. simpl.
    destruct (in_int4 i); [|exact I].
    destruct (find_row i (map fst g)); simpl; [|reflexivity].
    now rewrite map_fst_gremove.
Qed.

Lemma gstep_inv (op : repo_op) (g g' : list grow) :
  history_inv g -> gstep op g = Ok g' -> history_inv g'.
Proof.
  intros Hinv. destruct op as [cr now | i data now | i]; simpl.
  - destruct (create _ _ _) as [[s' t]|e] eqn:Hc; intro H; [|discriminate].
    injection H as <-. intros u m Hu. apply in_app_or in Hu as [Hu | [Hu | []]].
    + apply Hinv, Hu.
    + injection Hu as <- <-. rewrite (create_updated_at _ _ _ _ _ Hc). tauto.
  - destruct (update _ _ _ _) as [[s' [t'|]]|e] eqn:Hu; intro H;
      [| injection H as <-; exact Hinv | discriminate].
    injection H as <-. intros u m Hin.
    destruct (in_greplace _ _ _ _ _ Hin) as [Hg | Heq]; [apply Hinv, Hg|].
    injection Heq as -> ->. rewrite (update_updated_at _ _ _ _ _ _ Hu).
    split; discriminate.
  - destruct (delete _ _) as [[s' [|]]|e]; intro H; try discriminate;
      injection H as <-; [|exact Hinv].
    intros u m Hin. apply Hinv, (in_gremove i), Hin.
Qed.

(** C6 (corrected): in every state reached from the empty table by [create]
    calls on Create payloads, [update] calls with any dict and [delete]
    calls, a stored task's [updated_at] is null exactly when no [update] has
    modified the task since its creation (the history bit of [grun]). *)
Theorem updated_at_tracks_updates (ops : list repo_op) (s : Session) :
  run ops (open_session []) = Ok s ->
  exists g, grun ops [] = Ok g /\ pending s = map fst g /\
    forall t m, In (t, m) g -> (updated_at t = None <-> m = false).
Proof.
  assert (Hgen : forall ops s0 g0, pending s0 = map fst g0 -> history_inv g0 ->
            run ops s0 = Ok s -> exists g, grun ops g0 = Ok g /\ pending s = map fst g /\
            history_inv g).
  { induction ops0 as [|op ops0 IH]; intros s0 g0 Hsim Hinv Hrun; simpl in *.
    - injection Hrun as <-. exists g0. auto.
    - pose proof (gstep_sim op s0 g0 Hsim) as Hst.
      destruct (step op s0) as [s1|e]; [|discriminate].
      destruct (gstep op g0) as [g1|e] eqn:Hg; [|contradiction].
      apply (IH s1 g1); [exact Hst | apply (gstep_inv op g0); assumption | exact Hrun]. }
  intro Hrun. apply (Hgen ops (open_session []) []); [reflexivity | intros t m [] | exact Hrun].
Qed.

Lemma updated_at_tracks_updates_witness :
  exists s,
    run [OpCreate (mkTaskCreate "Buy groceries" None false) 1;
         OpCreate (mkTaskCreate "Walk the dog" None true) 2;
         OpUpdate 1 [SetCompleted (Some true)] 5] (open_session []) = Ok s /\
    exists g, grun [OpCreate (mkTaskCreate "Buy groceries" None false) 1;
                    OpCreate (mkTaskCreate "Walk the dog" None true) 2;
                    OpUpdate 1 [SetCompleted (Some true)] 5] [] = Ok g /\
              pending s = map fst g.
Proof.
  eexists. split; [vm_compute; reflexivity|].
  destruct (updated_at_tracks_updates
              [OpCreate (mkTaskCreate "Buy groceries" None false) 1;
               OpCreate (mkTaskCreate "Walk the dog" None true) 2;
               OpUpdate 1 [SetCompleted (Some true)] 5]
              _ ltac:(vm_compute; reflexivity)) as (g & Hg & Hp & _).
  exists g. split; assumption.
Defined.

(** C6: [create] keeps an [updated_at] item of its dict, so a task that was
    never updated can have a non-null [updated_at]. *)
Lemma create_with_updated_at_item :
  exists s t,
    create [SetTitle (Some "a"%string); SetUpdatedAt (Some 7)] 1 (open_session []) = Ok (s, t) /\
    pending s = [t] /\ updated_at t = Some 7.
Proof. vm_compute. eexists _, _. split; [reflexivity|]. split; reflexivity. Qed.

(** ** Connection-string rewriting *)

Local Open Scope string_scope.

Lemma starts_with_nil (s : string) : starts_with EmptyString s = true.
Proof. destruct s; reflexivity. Qed.

Lemma starts_with_self_app (p x : string) : starts_with p (p ++ x) = true.
Proof.
  induction p as [|c p IH]; simpl; [reflexivity|].
  rewrite Ascii.eqb_refl. exact IH.
Qed.

Lemma starts_with_app (q a x : string) :
  starts_with q (a ++ x) = true -> starts_with q a = true \/ starts_with a q = true.
Proof.
  revert a. induction q as [|d q IH]; intros a H; [left; apply starts_with_nil|].
  destruct a as [|c a]; [right; reflexivity|].
  simpl in H. apply andb_true_iff in H as [Hdc H].
  apply Ascii.eqb_eq in Hdc. subst d. simpl. rewrite Ascii.eqb_refl. simpl.
  apply IH, H.
Qed.

Lemma not_in_suffixes_nil (s : string) : ~ In EmptyString (suffixes s).
Proof. induction s as [|c s IH]; simpl; [tauto|]. intros [H | H]; [discriminate | tauto]. Qed.

Lemma self_in_suffixes (c : Ascii.ascii) (s : string) : In (String c s) (suffixes (String c s)).
Proof. left. reflexivity. Qed.

Lemma suffixes_tail (d : Ascii.ascii) (q s : string) :
  In (String d q) (suffixes s) -> q = EmptyString \/ In q (suffixes s).
Proof.
  induction s as [|c s IH]; simpl; [tauto|]. intros [H | H].
  - injection H as -> ->. destruct q as [|e q]; [left; reflexivity|].
    right. right. left. reflexivity.
  - destruct (IH H) as [He | Hin]; [left; exact He | right; right; exact Hin].
Qed.

Lemma contains_app (p a x : string) :
  contains p (a ++ x) = true ->
  contains p x = true \/ exists u, In u (suffixes a) /\ starts_with p (u ++ x) = true.
Proof.
  induction a as [|c a IH]; simpl; intro H; [left; exact H|].
  apply orb_true_iff in H as [H | H].
  - right. exists (String c a). split; [left; reflexivity | exact H].
  - destruct (IH H) as [Hx | (u & Hu & Hs)]; [left; exact Hx|].
    right. exists u. split; [right; exact Hu | exact Hs].
Qed.

Lemma contains_cons_sub (t : Ascii.ascii) (p s : string) :
  contains (String t p) s = true -> contains p s = true.
Proof.
  induction s as [|c s IH]; simpl; [discriminate|].
  intro H. apply orb_true_iff in H as [H | H].
  - apply andb_true_iff in H as [_ H].
    apply orb_true_iff. right. destruct s; simpl; rewrite H; reflexivity.
  - apply orb_true_iff. right. apply IH, H.
Qed.

Lemma drop_length (k : nat) (s : string) : (String.length (drop k s) <= String.length s)%nat.
Proof.
  revert s. induction k as [|k IH]; intros [|c s]; simpl; try lia.
  specialize (IH s). lia.
Qed.

Lemma replace_go_skip (old new : string) (k : nat) (s : string) :
  replace_go old new k s = replace_go old new O (drop k s).
Proof.
  revert k. induction s as [|c s IH]; intros [|k]; simpl; try reflexivity.
  apply IH.
Qed.

Lemma replace_all_cons (old new : string) (c : Ascii.ascii) (s : string) :
  replace_all old new (String c s) =
  if starts_with old (String c s)
  then new ++ replace_all old new (drop (pred (String.length old)) s)
  else String c (replace_all old new s).
Proof. unfold replace_all. simpl. rewrite replace_go_skip. reflexivity. Qed.

Lemma replace_first_prefix (old new s : string) :
  starts_with old s = true -> replace_first old new s = new ++ drop (String.length old) s.
Proof. intro H. destruct s; simpl; rewrite H; reflexivity. Qed.

Section ReplaceAll.
(** [s.replace(old, new)] leaves no occurrence of [old] when no non-empty
    suffix of either string is compatible with the other string. *)
Variables old new : string.
Hypothesis old_nonempty : old <> EmptyString.
Hypothesis old_suffixes :
  forallb (fun q => negb (starts_with q new) && negb (starts_with new q)) (suffixes old) = true.
Hypothesis new_suffixes :
  forallb (fun u => negb (starts_with u old) && negb (starts_with old u)) (suffixes new) = true.

Lemma old_suffix_incompatible (q : string) :
  In q (suffixes old) -> starts_with q new = false /\ starts_with new q = false.
Proof.
  intro Hq. rewrite forallb_forall in old_suffixes. specialize (old_suffixes q Hq).
  apply andb_true_iff in old_suffixes as [H1 H2].
  apply negb_true_iff in H1, H2. auto.
Qed.

Lemma new_suffix_incompatible (u : string) :
  In u (suffixes new) -> starts_with u old = false /\ starts_with old u = false.
Proof.
  intro Hu. rewrite forallb_forall in new_suffixes. specialize (new_suffixes u Hu).
  apply andb_true_iff in new_suffixes as [H1 H2].
  apply negb_true_iff in H1, H2. auto.
Qed.

Lemma replace_all_prefix_back (s q : string) :
  In q (suffixes old) -> starts_with q (replace_all old new s) = true ->
  starts_with q s = true.
Proof.
  revert q. induction s as [|c s IH]; intros q Hq H.
  - destruct q; [exfalso; exact (not_in_suffixes_nil _ Hq) | discriminate].
  - rewrite replace_all_cons in H.
    destruct (starts_with old (String c s)) eqn:Hold.
    + apply starts_with_app in H.
      destruct (old_suffix_incompatible q Hq) as [H1 H2].
      destruct H as [H | H]; congruence.
    + destruct q as [|d q]; [exfalso; exact (not_in_suffixes_nil _ Hq)|].
      simpl in H |- *. apply andb_true_iff in H as [Hdc H]. rewrite Hdc. simpl.
      destruct (suffixes_tail d q old Hq) as [-> | Hq'];
        [apply starts_with_nil | apply IH; assumption].
Qed.

Theorem replace_all_leaves_none (s : string) : contains old (replace_all old new s) = false.
Proof.
  remember (String.length s) as n eqn:Hn. assert (Hle : (String.length s <= n)%nat) by lia.
  clear Hn. revert s Hle. induction n as [|n IH]; intros s Hle.
  - destruct s; [|simpl in Hle; lia].
    destruct old; [contradiction | reflexivity].
  - destruct s as [|c s].
    + destruct old; [contradiction | reflexivity].
    + simpl in Hle. rewrite replace_all_cons.
      destruct (starts_with old (String c s)) eqn:Hold.
      * destruct (contains old (new ++ _)) eqn:Hc; [exfalso|reflexivity].
        apply contains_app in Hc as [Hc | (u & Hu & Hs)].
        -- rewrite IH in Hc; [discriminate|].
           pose proof (drop_length (pred (String.length old)) s). lia.
        -- apply starts_with_app in Hs.
           destruct (new_suffix_incompatible u Hu) as [H1 H2].
           destruct Hs as [Hs | Hs]; congruence.
      * simpl. rewrite (IH s) by lia. rewrite orb_false_r.
        set (r := replace_all old new s).
        destruct (starts_with old (String c r)) eqn:Hs; [exfalso|reflexivity].
        assert (Hex : exists d o, old = String d o)
          by (destruct old as [|d o]; [contradiction | eauto]).
        destruct Hex as (d & o & Eold).
        assert (Hself : In (String d o) (suffixes old))
          by (rewrite Eold; apply self_in_suffixes).
        rewrite Eold in Hs, Hold. simpl in Hs, Hold.
        apply andb_true_iff in Hs as [Hdc Hs]. rewrite Hdc in Hold. simpl in Hold.
        destruct (suffixes_tail d o old Hself) as [-> | Ho].
        -- rewrite starts_with_nil in Hold. discriminate.
        -- rewrite (replace_all_prefix_back s o Ho Hs) in Hold. discriminate.
Qed.
End ReplaceAll.

Lemma is_amp_true (c : Ascii.ascii) : is_amp c = true -> c = "&"%char.
Proof. apply Ascii.eqb_eq. Qed.

(** While dropping, the scan's output is empty or starts at an [&]. *)
Lemma strip_dropping_head (s : string) :
  strip_go true s = EmptyString \/ exists r, strip_go true s = String "&" r.
Proof.
  induction s as [|c s IH]; cbn [strip_go]; [left; reflexivity|].
  destruct (is_amp c) eqn:Ha; cbn [andb negb orb]; [|exact IH].
  destruct (starts_with channel_binding_key s); [exact IH|].
  apply is_amp_true in Ha. subst c. right. eexists. reflexivity.
Qed.

Section StripChannelBinding.
(** A string [p] with no [&] is never created by the scan. *)
Variable p : string.
Hypothesis p_no_amp : forallb (fun q => negb (starts_with "&" q)) (suffixes p) = true.

Lemma p_suffix_no_amp (q : string) : In q (suffixes p) -> starts_with "&" q = false.
Proof.
  intro Hq. rewrite forallb_forall in p_no_amp. apply negb_true_iff, p_no_amp, Hq.
Qed.

Lemma strip_dropping_no_prefix (q s : string) :
  In q (suffixes p) -> starts_with q (strip_go true s) = false.
Proof.
  intro Hq. destruct q as [|d q]; [exfalso; exact (not_in_suffixes_nil _ Hq)|].
  pose proof (p_suffix_no_amp _ Hq) as Hd. cbn [starts_with] in Hd.
  rewrite andb_true_r in Hd.
  destruct (strip_dropping_head s) as [-> | (r & ->)]; [reflexivity|].
  cbn [starts_with]. rewrite Ascii.eqb_sym, Hd. reflexivity.
Qed.

Lemma strip_prefix_back (s q : string) (b : bool) :
  In q (suffixes p) -> starts_with q (strip_go b s) = true -> starts_with q s = true.
Proof.
  revert q b. induction s as [|c s IH]; intros q b Hq H.
  - destruct q; [exfalso; exact (not_in_suffixes_nil _ Hq) | discriminate].
  - cbn [strip_go] in H.
    destruct (b && negb (is_amp c)).
    { rewrite strip_dropping_no_prefix in H by exact Hq. discriminate. }
    destruct ((is_amp c || Ascii.eqb c "?") && starts_with channel_binding_key s).
    { rewrite strip_dropping_no_prefix in H by exact Hq. discriminate. }
    destruct q as [|d q]; [exfalso; exact (not_in_suffixes_nil _ Hq)|].
    cbn [starts_with] in H |- *. apply andb_true_iff in H as [Hdc H]. rewrite Hdc.
    cbn [andb].
    destruct (suffixes_tail d q p Hq) as [-> | Hq'];
      [apply starts_with_nil | apply (IH q false Hq' H)].
Qed.

Hypothesis p_nonempty : p <> EmptyString.

Lemma strip_keeps_absent (s : string) (b : bool) :
  contains p s = false -> contains p (strip_go b s) = false.
Proof.
  revert b. induction s as [|c s IH]; intros b H; [exact H|].
  cbn [contains] in H. apply orb_false_iff in H as [Hst Hs].
  cbn [strip_go]. destruct (b && negb (is_amp c)); [apply IH, Hs|].
  destruct ((is_amp c || Ascii.eqb c "?") && starts_with channel_binding_key s);
    [apply IH, Hs|].
  cbn [contains]. rewrite (IH false Hs), orb_false_r.
  destruct (starts_with p (String c (strip_go false s))) eqn:Hp; [exfalso|reflexivity].
  assert (Hex : exists d o, p = String d o)
    by (destruct p as [|d o]; [contradiction | eauto]).
  destruct Hex as (d & o & Ep).
  assert (Hself : In (String d o) (suffixes p)) by (rewrite Ep; apply self_in_suffixes).
  rewrite Ep in Hp, Hst. cbn [starts_with] in Hp, Hst.
  apply andb_true_iff in Hp as [Hdc Hp]. rewrite Hdc in Hst. cbn [andb] in Hst.
  destruct (suffixes_tail d o p Hself) as [-> | Ho].
  - rewrite starts_with_nil in Hst. discriminate.
  - rewrite (strip_prefix_back s o false Ho Hp) in Hst. discriminate.
Qed.
End StripChannelBinding.

Lemma channel_binding_key_no_amp :
  forallb (fun q => negb (starts_with "&" q)) (suffixes channel_binding_key) = true.
Proof. reflexivity. Qed.

(** After the scan no [&channel_binding=] or [?channel_binding=] is left. *)
Lemma strip_removes_parameter (t : Ascii.ascii) (s : string) (b : bool) :
  (t = "&"%char \/ t = "?"%char) ->
  contains (String t channel_binding_key) (strip_go b s) = false.
Proof.
  intro Ht. revert b. induction s as [|c s IH]; intro b; [reflexivity|].
  cbn [strip_go]. destruct (b && negb (is_amp c)) eqn:Hdrop; [apply IH|].
  destruct ((is_amp c || Ascii.eqb c "?") && starts_with channel_binding_key s) eqn:Htrig;
    [apply IH|].
  cbn [contains starts_with]. rewrite (IH false), orb_false_r.
  destruct (Ascii.eqb t c) eqn:Htc; [cbn [andb]|reflexivity].
  destruct (starts_with channel_binding_key (strip_go false s)) eqn:Hk; [exfalso|reflexivity].
  apply (strip_prefix_back channel_binding_key channel_binding_key_no_amp s
           channel_binding_key false (self_in_suffixes _ _)) in Hk.
  rewrite Hk, andb_true_r in Htrig.
  apply Ascii.eqb_eq in Htc. subst c.
  destruct Ht as [-> | ->]; discriminate.
Qed.

Lemma sslmode_no_amp : forallb (fun q => negb (starts_with "&" q)) (suffixes "sslmode=") = true.
Proof. reflexivity. Qed.

Lemma sslmode_replace_leaves_none (s : string) :
  contains "sslmode=" (replace_all "sslmode=" "ssl=" s) = false.
Proof. apply replace_all_leaves_none; [discriminate | reflexivity | reflexivity]. Qed.

Lemma asyncpg_prefix_kept (x : string) :
  starts_with "postgresql+asyncpg://"
    (let url := "postgresql+asyncpg://" ++ x in
     let url := if contains "sslmode=" url then replace_all "sslmode=" "ssl=" url else url in
     if contains channel_binding_key url then strip_channel_binding url else url) = true.
Proof.
  cbv zeta. set (pre := "postgresql+asyncpg://").
  assert (Hr : replace_all "sslmode=" "ssl=" (pre ++ x) = pre ++ replace_all "sslmode=" "ssl=" x)
    by reflexivity.
  assert (Hs : forall y, strip_channel_binding (pre ++ y) = pre ++ strip_channel_binding y)
    by reflexivity.
  destruct (contains "sslmode=" (pre ++ x)); rewrite ?Hr;
    match goal with
    | |- context [if contains ?k ?u then _ else _] => destruct (contains k u)
    end; rewrite ?Hs; apply starts_with_self_app.
Qed.

Lemma rewrite_url_props (raw : string) :
  (starts_with "postgresql://" raw = true ->
   starts_with "postgresql+asyncpg://" (rewrite_url raw) = true) /\
  contains "sslmode=" (rewrite_url raw) = false /\
  contains "&channel_binding=" (rewrite_url raw) = false /\
  contains "?channel_binding=" (rewrite_url raw) = false.
Proof.
  unfold rewrite_url. cbv zeta. split.
  { intro Hp. rewrite Hp, (replace_first_prefix _ _ _ Hp). apply asyncpg_prefix_kept. }
  set (u1 := if starts_with "postgresql://" raw then _ else raw).
  set (u2 := if contains "sslmode=" u1 then _ else u1).
  assert (Hu2 : contains "sslmode=" u2 = false).
  { unfold u2. destruct (contains "sslmode=" u1) eqn:Hc;
      [apply sslmode_replace_leaves_none | exact Hc]. }
  assert (Hcb : forall t, contains channel_binding_key u2 = false ->
                contains (String t channel_binding_key) u2 = false).
  { intros t Hc. destruct (contains (String t channel_binding_key) u2) eqn:Hx; [|reflexivity].
    apply contains_cons_sub in Hx. congruence. }
  destruct (contains channel_binding_key u2) eqn:Hc.
  - split; [apply strip_keeps_absent; [exact sslmode_no_amp | discriminate | exact Hu2]|].
    split; apply strip_removes_parameter; [left | right]; reflexivity.
  - split; [exact Hu2|]. split; apply Hcb; reflexivity.
Qed.

(** C8: [DatabaseConfig] takes the connection string from DATABASE_URL, or
    from DB_URL when DATABASE_URL is unset or empty, and fails when neither
    holds a non-empty value.  The rewritten string starts with
    [postgresql+asyncpg://] when the original started with [postgresql://],
    contains no [sslmode=] (each one became [ssl=]) and no
    [&channel_binding=] or [?channel_binding=] parameter. *)
Theorem database_config_url_rewrites (env : environment) :
  (truthy (env "DATABASE_URL") = false -> truthy (env "DB_URL") = false ->
   exists msg, database_config_url env = ConfigError msg) /\
  (forall url, database_config_url env = ConfigOk url ->
   exists raw,
     py_or (env "DATABASE_URL") (env "DB_URL") = Some raw /\
     (truthy (env "DATABASE_URL") = true -> env "DATABASE_URL" = Some raw) /\
     url = rewrite_url raw /\
     (starts_with "postgresql://" raw = true ->
      starts_with "postgresql+asyncpg://" url = true) /\
     contains "sslmode=" url = false /\
     contains "&channel_binding=" url = false /\
     contains "?channel_binding=" url = false).
Proof.
  unfold database_config_url, py_or. split.
  - intros H1 H2. rewrite H1.
    destruct (env "DB_URL") as [[|c u]|]; simpl in H2; try discriminate; eexists; reflexivity.
  - intros url H.
    assert (Hsel : exists raw, (if truthy (env "DATABASE_URL") then env "DATABASE_URL"
                                else env "DB_URL") = Some raw /\ url = rewrite_url raw).
    { destruct (if truthy (env "DATABASE_URL") then env "DATABASE_URL" else env "DB_URL")
        as [[|c u]|]; try discriminate.
      injection H as <-. eexists. split; reflexivity. }
    destruct Hsel as (raw & Hraw & ->). exists raw.
    split; [exact Hraw|]. split.
    { intro Ht. rewrite Ht in Hraw. exact Hraw. }
    split; [reflexivity|]. apply rewrite_url_props.
Qed.

Lemma database_config_url_rewrites_witness :
  database_config_url (fun n => if String.eqb n "DATABASE_URL"
                               then Some "postgresql://u:p@h/db?sslmode=require&channel_binding=require"
                               else None) =
  ConfigOk "postgresql+asyncpg://u:p@h/db?ssl=require" /\
  exists url, database_config_url (fun n => if String.eqb n "DATABASE_URL"
                               then Some "postgresql://u:p@h/db?sslmode=require&channel_binding=require"
                               else None) = ConfigOk url /\ contains "sslmode=" url = false.
Proof.
  split; [vm_compute; reflexivity|].
  destruct (database_config_url_rewrites (fun n => if String.eqb n "DATABASE_URL"
                               then Some "postgresql://u:p@h/db?sslmode=require&channel_binding=require"
                               else None)) as [_ H].
  eexists. split; [vm_compute; reflexivity|].
  destruct (H _ ltac:(vm_compute; reflexivity)) as (raw & _ & _ & _ & _ & Hs & _).
  exact Hs.
Defined.

Local Close Scope string_scope.

(** ** Further lemmas on the storage model *)

Lemma find_row_none_mem (i : Z) (rows : list Task) :
  mem_id i rows = false -> find_row i rows = None.
Proof.
  induction rows as [|u rows IH]; simpl; intro H; [reflexivity|].
  apply orb_false_iff in H as [Hu H]. rewrite Hu. apply IH, H.
Qed.


Lemma id_is_other (i j : Z) (t : Task) : id t = Some i -> j <> i -> id_is j t = false.
Proof. intros Hid Hji. unfold id_is. rewrite Hid. apply Z.eqb_neq, Hji. Qed.


Lemma length_replace_row (i : Z) (t' : Task) (rows : list Task) :
  length (replace_row i t' rows) = length rows.
Proof.
  induction rows as [|u rows IH]; simpl; [reflexivity|].
  destruct (id_is i u); simpl; [reflexivity | rewrite IH; reflexivity].
Qed.

Lemma find_row_remove_same (i : Z) (rows : list Task) :
  pk_ok rows = true -> find_row i (remove_row i rows) = None.
Proof.
  induction rows as [|u rows IH]; simpl; intro Hok; [reflexivity|].
  destruct (id u) as [j|] eqn:Hu; [|discriminate].
  apply andb_true_iff in Hok as [Hn Hok].
  destruct (id_is i u) eqn:E.
  - apply id_is_true in E. rewrite Hu in E. injection E as ->.
    apply find_row_none_mem, negb_true_iff, Hn.
  - simpl. rewrite E. apply IH, Hok.
Qed.

Lemma find_row_remove_other (i j : Z) (rows : list Task) :
  j <> i -> find_row j (remove_row i rows) = find_row j rows.
Proof.
  intro Hji. induction rows as [|u rows IH]; simpl; [reflexivity|].
  destruct (id_is i u) eqn:E.
  - apply id_is_true in E. rewrite (id_is_other i j u E Hji). reflexivity.
  - simpl. rewrite IH. reflexivity.
Qed.

Lemma length_remove_row (i : Z) (rows : list Task) :
  find_row i rows <> None -> length (remove_row i rows) = pred (length rows).
Proof.
  induction rows as [|u rows IH]; simpl; intro H; [congruence|].
  destruct (id_is i u); simpl; [reflexivity|].
  rewrite IH by exact H. destruct rows; simpl in *; [congruence | reflexivity].
Qed.

Lemma mem_id_remove (i j : Z) (rows : list Task) :
  mem_id j (remove_row i rows) = true -> mem_id j rows = true.
Proof.
  induction rows as [|u rows IH]; simpl; [discriminate|].
  destruct (id_is i u); simpl; intro H.
  - rewrite H. apply orb_true_r.
  - apply orb_true_iff in H as [H | H]; [rewrite H; reflexivity|].
    rewrite (IH H). apply orb_true_r.
Qed.

Lemma pk_ok_remove (i : Z) (rows : list Task) :
  pk_ok rows = true -> pk_ok (remove_row i rows) = true.
Proof.
  induction rows as [|u rows IH]; simpl; intro Hok; [reflexivity|].
  destruct (id u) as [j|] eqn:Hu; [|discriminate].
  apply andb_true_iff in Hok as [Hn Hok].
  destruct (id_is i u); [exact Hok|].
  simpl. rewrite Hu, (IH Hok), andb_true_r.
  destruct (mem_id j (remove_row i rows)) eqn:Hm; [|reflexivity].
  apply mem_id_remove in Hm. rewrite Hm in Hn. discriminate.
Qed.

Lemma find_row_In (i : Z) (rows : list Task) (t : Task) :
  find_row i rows = Some t -> In t rows.
Proof.
  induction rows as [|u rows IH]; simpl; [discriminate|].
  destruct (id_is i u); intro H; [injection H as <-; left; reflexivity | right; apply IH, H].
Qed.








(** ** The generated key *)





(** ** Calls with arguments the database takes *)


Lemma update_keeps_length (task_id : Z) (data : list assign) (now : Z) (s s' : Session)
  (r : option Task) :
  update task_id data now s = Ok (s', r) -> length (pending s') = length (pending s).
Proof.
  unfold update. destruct (get task_id s) as [[t|]|]; [| |discriminate].
  - cbv zeta. match goal with |- context [if flush_ok ?t ?rows then _ else _] =>
      destruct (flush_ok t rows) end; intro H; [|discriminate].
    injection H as <- _. apply length_replace_row.
  - intro H. injection H as <- _. reflexivity.
Qed.

Lemma firstn_add_app {A} (a b : nat) (l : list A) :
  firstn (a + b) l = firstn a l ++ firstn b (skipn a l).
Proof.
  revert l. induction a as [|a IH]; intro l; [reflexivity|].
  destruct l as [|x l]; simpl.
  - rewrite firstn_nil. reflexivity.
  - f_equal. apply IH.
Qed.

(** ** Further lemmas on the connection string *)

Local Open Scope string_scope.

Lemma starts_with_split (p s : string) : starts_with p s = true -> exists y, s = p ++ y.
Proof.
  revert s. induction p as [|c p IH]; intros s H; [exists s; reflexivity|].
  destruct s as [|d s]; [discriminate|].
  simpl in H. apply andb_true_iff in H as [Hcd H].
  apply Ascii.eqb_eq in Hcd. subst d.
  destruct (IH s H) as [y ->]. exists y. reflexivity.
Qed.

Lemma contains_tail (p : string) (c : Ascii.ascii) (s : string) :
  contains p (String c s) = false -> contains p s = false.
Proof. cbn [contains]. intro H. apply orb_false_iff in H as [_ H]. exact H. Qed.

Lemma contains_head (p : string) (s : string) :
  contains p s = false -> starts_with p s = false.
Proof. destruct s; cbn [contains]; intro H; apply orb_false_iff in H as [H _]; exact H. Qed.

Lemma starts_with_cons_same (c : Ascii.ascii) (p s : string) :
  starts_with (String c p) (String c s) = starts_with p s.
Proof. cbn [starts_with]. rewrite Ascii.eqb_refl. reflexivity. Qed.

(** A string holding no [&channel_binding=] and no [?channel_binding=] passes
    the [re.sub] unchanged. *)
Lemma strip_identity (s : string) :
  contains "&channel_binding=" s = false -> contains "?channel_binding=" s = false ->
  strip_channel_binding s = s.
Proof.
  unfold strip_channel_binding.
  induction s as [|c s IH]; intros Ha Hq; [reflexivity|].
  cbn [strip_go andb].
  destruct ((is_amp c || Ascii.eqb c "?") && starts_with channel_binding_key s) eqn:Htrig.
  - exfalso. apply andb_true_iff in Htrig as [Hc Hk].
    apply orb_true_iff in Hc as [Hc | Hc].
    + apply is_amp_true in Hc. subst c. apply contains_head in Ha.
      change "&channel_binding=" with (String "&" channel_binding_key) in Ha.
      rewrite starts_with_cons_same in Ha. congruence.
    + apply Ascii.eqb_eq in Hc. subst c. apply contains_head in Hq.
      change "?channel_binding=" with (String "?" channel_binding_key) in Hq.
      rewrite starts_with_cons_same in Hq. congruence.
  - rewrite (IH (contains_tail _ _ _ Ha) (contains_tail _ _ _ Hq)). reflexivity.
Qed.

(** A URL that needs none of the three rewrites is left as it is. *)
Lemma rewrite_url_fixed (r : string) :
  starts_with "postgresql://" r = false -> contains "sslmode=" r = false ->
  contains "&channel_binding=" r = false -> contains "?channel_binding=" r = false ->
  rewrite_url r = r.
Proof.
  intros Hp Hs Ha Hq. unfold rewrite_url. cbv zeta. rewrite Hp, Hs.
  destruct (contains channel_binding_key r); [apply strip_identity; assumption | reflexivity].
Qed.

Lemma asyncpg_not_postgresql (r : string) :
  starts_with "postgresql+asyncpg://" r = true -> starts_with "postgresql://" r = false.
Proof. intro H. destruct (starts_with_split _ _ H) as [y ->]. reflexivity. Qed.

Local Close Scope string_scope.

(** ** Further lemmas on [init_db] *)

Lemma init_db_fst (py_int : string -> option Z) (accepts : Engine -> bool) (env : environment) (st st' : option Engine) :
  fst (init_db py_int accepts env st) = fst (init_db py_int accepts env st').
Proof. unfold init_db. destruct (database_config py_int env); [destruct (accepts _)|]; reflexivity. Qed.

Lemma init_db_raised (py_int : string -> option Z) (accepts : Engine -> bool) (env : environment) (st : option Engine)
  (x : py_exc) :
  fst (init_db py_int accepts env st) = PyErr x -> snd (init_db py_int accepts env st) = st.
Proof.
  unfold init_db. destruct (database_config py_int env); [destruct (accepts _)|];
    simpl; solve [discriminate | reflexivity].
Qed.

Lemma init_db_returned (py_int : string -> option Z) (accepts : Engine -> bool) (env : environment) (st : option Engine)
  (e : Engine) :
  fst (init_db py_int accepts env st) = PyOk e -> snd (init_db py_int accepts env st) = Some e.
Proof.
  unfold init_db. destruct (database_config py_int env); [destruct (accepts _)|];
    simpl; intro H; try discriminate; injection H as <-; reflexivity.
Qed.

Lemma init_db_all_raised (py_int : string -> option Z) (accepts : Engine -> bool) (envs : list environment)
  (engine : option Engine) :
  (forall env, In env envs -> exists x, fst (init_db py_int accepts env None) = PyErr x) ->
  fold_left (fun st env => snd (init_db py_int accepts env st)) envs engine = engine.
Proof.
  revert engine. induction envs as [|env envs IH]; intros engine H; simpl; [reflexivity|].
  destruct (H env (or_introl eq_refl)) as [x Hx].
  rewrite (init_db_fst py_int accepts env None engine) in Hx.
  rewrite (init_db_raised py_int accepts env engine x Hx).
  apply IH. intros env' Hin. apply H. right. exact Hin.
Qed.

Lemma init_db_all_some (py_int : string -> option Z) (accepts : Engine -> bool) (envs : list environment) (e : Engine) :
  fold_left (fun st env => snd (init_db py_int accepts env st)) envs (Some e) <> None.
Proof.
  revert e. induction envs as [|env envs IH]; intro e; simpl; [discriminate|].
  unfold init_db at 2. destruct (database_config py_int env); [destruct (accepts _)|]; apply IH.
Qed.
(** ** Properties of the repository beyond the claims *)

(** X1: [count] follows the rows the session sees: a [create] that succeeds
    adds one, a [delete] that finds the task removes one, a [delete] that
    finds none and every successful [update] leave it unchanged. *)
Theorem count_tracks_rows (s : Session) :
  (forall data now s' t, create data now s = Ok (s', t) -> count s' = count s + 1) /\
  (forall i s', delete i s = Ok (s', true) -> count s' = count s - 1) /\
  (forall i s', delete i s = Ok (s', false) -> count s' = count s) /\
  (forall i data now s' r, update i data now s = Ok (s', r) -> count s' = count s).
Proof.
  split; [|split; [|split]].
  - intros data now s' t. unfold create. cbv zeta.
    match goal with |- context [if flush_ok ?t ?rows then _ else _] =>
      destruct (flush_ok t rows) end; intro H; [|discriminate].
    injection H as <- _. unfold count. simpl. rewrite length_app. simpl. lia.
  - intros i s'. unfold delete. destruct (get i s) as [[t|]|] eqn:E; intro H; try discriminate.
    injection H as <-. destruct (get_some _ _ _ E) as [_ Hf].
    unfold count. simpl. rewrite length_remove_row by congruence.
    pose proof (find_row_In _ _ _ Hf) as Hin.
    destruct (pending s) as [|u rows]; [destruct Hin|]. cbn [length pred]. lia.
  - intros i s'. unfold delete. destruct (get i s) as [[t|]|]; intro H; try discriminate.
    injection H as <-. reflexivity.
  - intros i data now s' r H. unfold count.
    rewrite (update_keeps_length _ _ _ _ _ _ H). reflexivity.
Qed.

Lemma count_tracks_rows_witness :
  exists s', delete 1 (open_session
    [{| id := Some 1; title := Some "a"%string; description := None;
        completed := Some false; created_at := Some 1; updated_at := None |}]) = Ok (s', true) /\
    count s' = 0.
Proof.
  eexists. split; [vm_compute; reflexivity|].
  destruct (count_tracks_rows (open_session
    [{| id := Some 1; title := Some "a"%string; description := None;
        completed := Some false; created_at := Some 1; updated_at := None |}])) as (_ & Hd & _).
  rewrite (Hd 1 _ ltac:(vm_compute; reflexivity)). reflexivity.
Defined.

(** X2: deleting a task [get] finds, in a session whose rows have unique
    keys, reports success, after which [get] on that id returns None, the key
    constraint still holds, and [get] on every other id returns what it
    returned before. *)
Theorem delete_then_get (i : Z) (s : Session) (t : Task) :
  pk_ok (pending s) = true -> get i s = Ok (Some t) ->
  exists s',
    delete i s = Ok (s', true) /\
    get i s' = Ok None /\
    pk_ok (pending s') = true /\
    (forall j, j <> i -> get j s' = get j s).
Proof.
  intros Hok Hg. destruct (get_some _ _ _ Hg) as [Hi _].
  exists (mkSession (committed s) (remove_row i (pending s))).
  split; [unfold delete; rewrite Hg; reflexivity|].
  split; [rewrite (get_in_range _ _ Hi); cbn [pending]; rewrite find_row_remove_same by exact Hok;
          reflexivity|].
  split; [apply pk_ok_remove, Hok|].
  intros j Hj. unfold get. cbn [pending].
  destruct (in_int4 j); [rewrite find_row_remove_other by exact Hj|]; reflexivity.
Qed.

Lemma delete_then_get_witness :
  exists s',
    delete 1 (open_session
      [{| id := Some 1; title := Some "a"%string; description := None;
          completed := Some false; created_at := Some 1; updated_at := None |};
       {| id := Some 2; title := Some "b"%string; description := None;
          completed := Some true; created_at := Some 2; updated_at := None |}]) = Ok (s', true) /\
    get 1 s' = Ok None.
Proof.
  destruct (delete_then_get 1 (open_session
      [{| id := Some 1; title := Some "a"%string; description := None;
          completed := Some false; created_at := Some 1; updated_at := None |};
       {| id := Some 2; title := Some "b"%string; description := None;
          completed := Some true; created_at := Some 2; updated_at := None |}])
      {| id := Some 1; title := Some "a"%string; description := None;
         completed := Some false; created_at := Some 1; updated_at := None |}
      ltac:(reflexivity) ltac:(vm_compute; reflexivity)) as (s' & H1 & H2 & _).
  exists s'. split; assumption.
Defined.



(** X4: consecutive pages concatenate: for non-negative [skip], [a] and [b]
    whose sum is within INTEGER, the page of [a] rows at [skip] followed by
    the page of [b] rows at [skip + a] is the page of [a + b] rows at
    [skip]. *)
Theorem get_all_pages_concat (skip a b : Z) (s : Session) :
  0 <= skip -> 0 <= a -> 0 <= b -> skip + a + b < 2147483648 ->
  exists p1 p2,
    get_all skip a s = Ok p1 /\
    get_all (skip + a) b s = Ok p2 /\
    get_all skip (a + b) s = Ok (p1 ++ p2).
Proof.
  intros Hs Ha Hb Hmax. unfold get_all.
  rewrite (proj2 (get_all_accepts skip a)) by lia.
  rewrite (proj2 (get_all_accepts (skip + a) b)) by lia.
  rewrite (proj2 (get_all_accepts skip (a + b))) by lia.
  do 2 eexists. split; [reflexivity|]. split; [reflexivity|]. f_equal.
  rewrite (Z2Nat.inj_add a b), (Z2Nat.inj_add skip a) by lia.
  rewrite firstn_add_app, skipn_skipn. do 3 f_equal. lia.
Qed.

Lemma get_all_pages_concat_witness :
  exists p1 p2,
    get_all 0 2 (open_session
      [{| id := Some 3; title := Some "c"%string; description := None;
          completed := Some false; created_at := Some 3; updated_at := None |};
       {| id := Some 1; title := Some "a"%string; description := None;
          completed := Some false; created_at := Some 1; updated_at := None |};
       {| id := Some 2; title := Some "b"%string; description := None;
          completed := Some false; created_at := Some 2; updated_at := None |}]) = Ok p1 /\
    get_all (0 + 2) 2 (open_session
      [{| id := Some 3; title := Some "c"%string; description := None;
          completed := Some false; created_at := Some 3; updated_at := None |};
       {| id := Some 1; title := Some "a"%string; description := None;
          completed := Some false; created_at := Some 1; updated_at := None |};
       {| id := Some 2; title := Some "b"%string; description := None;
          completed := Some false; created_at := Some 2; updated_at := None |}]) = Ok p2 /\
    get_all 0 (2 + 2) (open_session
      [{| id := Some 3; title := Some "c"%string; description := None;
          completed := Some false; created_at := Some 3; updated_at := None |};
       {| id := Some 1; title := Some "a"%string; description := None;
          completed := Some false; created_at := Some 1; updated_at := None |};
       {| id := Some 2; title := Some "b"%string; description := None;
          completed := Some false; created_at := Some 2; updated_at := None |}]) = Ok (p1 ++ p2).
Proof. apply get_all_pages_concat; lia. Defined.

(** ** Properties of the endpoints beyond the claims *)






(** X8: DELETE /tasks/{id} with an id within INTEGER on a stored task, over
    rows with unique keys, responds 204 with no body and commits: a
    following GET or DELETE of the same id responds 404, one row fewer is
    stored, and GET of every other id responds as before. *)
Theorem delete_task_then_get (i : Z) (db : list Task) :
  pk_ok db = true -> in_int4 i = true -> find_row i db <> None ->
  exists db',
    delete_task i db = (mkResponse 204 BEmpty, db') /\
    get_task i db' = (not_found i, db') /\
    delete_task i db' = (not_found i, db') /\
    length db' = pred (length db) /\
    (forall j, j <> i -> fst (get_task j db') = fst (get_task j db)).
Proof.
  intros Hok Hi Hg. exists (remove_row i db).
  assert (Hn : find_row i (remove_row i db) = None) by (apply find_row_remove_same, Hok).
  unfold delete_task, delete, get_task, get. rewrite Hi. cbn [pending open_session committed commit].
  destruct (find_row i db) as [t|] eqn:E; [|congruence]. rewrite Hn.
  split; [reflexivity|]. split; [reflexivity|]. split; [reflexivity|].
  split; [apply length_remove_row; congruence|].
  intros j Hj. destruct (in_int4 j); [|reflexivity].
  rewrite (find_row_remove_other i j db Hj). destruct (find_row j db); reflexivity.
Qed.

Lemma delete_task_then_get_witness :
  exists db',
    delete_task 2
      [{| id := Some 1; title := Some "a"%string; description := None;
          completed := Some false; created_at := Some 1; updated_at := None |};
       {| id := Some 2; title := Some "b"%string; description := None;
          completed := Some false; created_at := Some 2; updated_at := None |}] =
      (mkResponse 204 BEmpty, db') /\
    get_task 2 db' = (not_found 2, db').
Proof.
  destruct (delete_task_then_get 2
      [{| id := Some 1; title := Some "a"%string; description := None;
          completed := Some false; created_at := Some 1; updated_at := None |};
       {| id := Some 2; title := Some "b"%string; description := None;
          completed := Some false; created_at := Some 2; updated_at := None |}]
      ltac:(reflexivity) ltac:(reflexivity) ltac:(vm_compute; discriminate))
    as (db' & H1 & H2 & _).
  exists db'. split; [exact H1 | exact H2].
Defined.

(** ** Properties of the database configuration beyond the claims *)


Local Open Scope string_scope.

(** X9: a connection string that does not start with [postgresql://] and
    holds no [sslmode=], no [&channel_binding=] and no [?channel_binding=]
    (an SQLite URL, or one already rewritten) is used exactly as given. *)
Theorem database_config_url_unchanged (env : environment) (raw : string) :
  py_or (env "DATABASE_URL") (env "DB_URL") = Some raw -> raw <> EmptyString ->
  starts_with "postgresql://" raw = false -> contains "sslmode=" raw = false ->
  contains "&channel_binding=" raw = false -> contains "?channel_binding=" raw = false ->
  database_config_url env = ConfigOk raw.
Proof.
  intros Hraw Hne Hp Hs Ha Hq. unfold database_config_url. cbv zeta. rewrite Hraw.
  destruct raw as [|c r]; [congruence|].
  change (ConfigOk (rewrite_url (String c r)) = ConfigOk (String c r)).
  rewrite rewrite_url_fixed by assumption. reflexivity.
Qed.

Lemma database_config_url_unchanged_witness :
  database_config_url (fun n => if String.eqb n "DATABASE_URL"
                               then Some "sqlite+aiosqlite:///./tasks.db" else None) =
  ConfigOk "sqlite+aiosqlite:///./tasks.db".
Proof.
  apply database_config_url_unchanged;
    [reflexivity | discriminate | reflexivity | reflexivity | reflexivity | reflexivity].
Defined.

(** X10: rewriting a rewritten connection string again changes nothing,
    for every string that starts with [postgresql://] and every string
    whose rewritten form does not start with [postgresql://]. *)
Theorem rewrite_url_idempotent (raw : string) :
  starts_with "postgresql://" raw = true \/
  starts_with "postgresql://" (rewrite_url raw) = false ->
  rewrite_url (rewrite_url raw) = rewrite_url raw.
Proof.
  intro H. destruct (rewrite_url_props raw) as (Hpg & Hs & Ha & Hq).
  apply rewrite_url_fixed; [|exact Hs | exact Ha | exact Hq].
  destruct H as [H | H]; [apply asyncpg_not_postgresql, Hpg, H | exact H].
Qed.

Lemma rewrite_url_idempotent_witness :
  rewrite_url (rewrite_url "postgresql://u:p@h/db?sslmode=require&channel_binding=require") =
  rewrite_url "postgresql://u:p@h/db?sslmode=require&channel_binding=require".
Proof. apply rewrite_url_idempotent. left. reflexivity. Defined.

(** X11: [DatabaseConfig()] fails with ValueError when no connection string
    is set, and also, with one set, when DB_POOL_SIZE or DB_MAX_OVERFLOW
    holds text [int()] rejects; with SQL_ECHO, DB_POOL_SIZE and
    DB_MAX_OVERFLOW unset it has echo off, a pool of 5 and an overflow of 10,
    for every [int()] that reads ["5"] as 5 and ["10"] as 10. *)
Theorem database_config_settings (py_int : string -> option Z) (env : environment) :
  (forall msg, database_config_url env = ConfigError msg ->
   database_config py_int env = PyErr ValueError) /\
  (forall url, database_config_url env = ConfigOk url ->
   py_int (getenv_default env "DB_POOL_SIZE" "5") = None \/
   py_int (getenv_default env "DB_MAX_OVERFLOW" "10") = None ->
   database_config py_int env = PyErr ValueError) /\
  (forall url, database_config_url env = ConfigOk url ->
   py_int "5" = Some 5%Z -> py_int "10" = Some 10%Z ->
   env "SQL_ECHO" = None -> env "DB_POOL_SIZE" = None -> env "DB_MAX_OVERFLOW" = None ->
   database_config py_int env = PyOk (mkDatabaseConfig url false 5 10)).
Proof.
  unfold database_config. split; [|split].
  - intros msg H. rewrite H. reflexivity.
  - intros url H Hbad. rewrite H. cbv zeta.
    destruct Hbad as [Hb | Hb]; rewrite Hb; [reflexivity|].
    destruct (py_int (getenv_default env "DB_POOL_SIZE" "5")); reflexivity.
  - intros url H H5 H10 He Hp Hm. rewrite H. unfold getenv_default. rewrite He, Hp, Hm.
    cbv zeta. rewrite H5, H10. reflexivity.
Qed.

Lemma database_config_settings_witness :
  database_config int_latin1 (fun n => if String.eqb n "DATABASE_URL"
                                      then Some "postgresql://h/db" else None) =
  PyOk (mkDatabaseConfig "postgresql+asyncpg://h/db" false 5 10) /\
  database_config int_latin1 (fun n => if String.eqb n "DATABASE_URL" then Some "postgresql://h/db"
                                       else if String.eqb n "DB_POOL_SIZE" then Some "five"
                                       else None) =
  PyErr ValueError.
Proof.
  destruct (database_config_settings int_latin1 (fun n => if String.eqb n "DATABASE_URL"
                           then Some "postgresql://h/db" else None)) as (_ & _ & Hd).
  destruct (database_config_settings int_latin1 (fun n => if String.eqb n "DATABASE_URL"
                            then Some "postgresql://h/db"
                            else if String.eqb n "DB_POOL_SIZE" then Some "five" else None))
    as (_ & Hb & _).
  split.
  - apply Hd; vm_compute; reflexivity.
  - apply (Hb "postgresql+asyncpg://h/db"); [vm_compute; reflexivity|].
    left. vm_compute. reflexivity.
Defined.

(** X12: after a sequence of [init_db()] calls from an uninitialized module,
    [get_session()] raises RuntimeError exactly when every call raised;
    otherwise [get_session()] and [get_engine()] return the engine of the last
    call that returned, an engine on the rewritten connection string of that
    call's environment: a call that raises keeps the engine in place.  This
    holds for every [int()] and every [create_async_engine] acceptance. *)
Theorem get_session_after_init_db (py_int : string -> option Z) (accepts : Engine -> bool)
  (envs : list environment) :
  let engine := fold_left (fun st env => snd (init_db py_int accepts env st)) envs None in
  (get_session engine = PyErr RuntimeError <->
   forall env, In env envs -> exists x, fst (init_db py_int accepts env None) = PyErr x) /\
  (forall pre env post e,
     envs = (pre ++ env :: post)%list -> fst (init_db py_int accepts env None) = PyOk e ->
     (forall env', In env' post -> exists x, fst (init_db py_int accepts env' None) = PyErr x) ->
     get_session engine = PyOk e /\ get_engine engine = PyOk e /\
     exists config, database_config py_int env = PyOk config /\ engine_url e = cfg_url config).
Proof.
  intro engine. split.
  - split.
    + intros H env Hin.
      destruct (fst (init_db py_int accepts env None)) as [e | x] eqn:Hc;
        [exfalso | exists x; reflexivity].
      apply in_split in Hin as (l1 & l2 & Hl).
      unfold engine in H. rewrite Hl, fold_left_app in H. cbn [fold_left] in H.
      set (st := fold_left (fun st env => snd (init_db py_int accepts env st)) l1 None) in H.
      rewrite (init_db_fst py_int accepts env None st) in Hc.
      rewrite (init_db_returned py_int accepts env st e Hc) in H.
      destruct (fold_left (fun st env => snd (init_db py_int accepts env st)) l2 (Some e)) eqn:Hf;
        [discriminate | exact (init_db_all_some py_int accepts l2 e Hf)].
    + intro H. unfold engine. rewrite (init_db_all_raised py_int accepts envs None H). reflexivity.
  - intros pre env post e Hl Hc Hpost.
    assert (Hcfg : exists config, database_config py_int env = PyOk config /\
                                  engine_url e = cfg_url config).
    { revert Hc. unfold init_db. destruct (database_config py_int env) as [config|]; [|discriminate].
      destruct (accepts _); intro Hc; [|discriminate].
      injection Hc as <-. exists config. split; reflexivity. }
    unfold engine. rewrite Hl, fold_left_app. cbn [fold_left].
    set (st := fold_left (fun st env => snd (init_db py_int accepts env st)) pre None).
    rewrite (init_db_fst py_int accepts env None st) in Hc.
    rewrite (init_db_returned py_int accepts env st e Hc),
      (init_db_all_raised py_int accepts post (Some e) Hpost).
    split; [reflexivity | split; [reflexivity | exact Hcfg]].
Qed.

Lemma get_session_after_init_db_witness :
  get_session (fold_left (fun st env => snd (init_db int_latin1 (fun _ => true) env st))
                 [fun n => if String.eqb n "DATABASE_URL" then Some "postgresql://h/db" else None;
                  fun n => None] None) =
  PyOk (mkEngine "postgresql+asyncpg://h/db" false 5 10 true 3600) /\
  get_session (fold_left (fun st env => snd (init_db int_latin1 (fun _ => true) env st))
                 [fun n => None] None) =
  PyErr RuntimeError.
Proof.
  split.
  - destruct (get_session_after_init_db int_latin1 (fun _ => true)
                 [fun n => if String.eqb n "DATABASE_URL" then Some "postgresql://h/db" else None;
                  fun n => None]) as [_ H2].
    apply (H2 [] (fun n => if String.eqb n "DATABASE_URL" then Some "postgresql://h/db" else None)
              [fun n => None] (mkEngine "postgresql+asyncpg://h/db" false 5 10 true 3600)
              eq_refl ltac:(vm_compute; reflexivity)).
    intros env' [<- | []]. exists ValueError. vm_compute. reflexivity.
  - apply (get_session_after_init_db int_latin1 (fun _ => true) [fun n => None]).
    intros env [<- | []]. exists ValueError. vm_compute. reflexivity.
Defined.

Local Close Scope string_scope.
